(** * Dramagotchi: the pet core of [src/Dramagotchi.py]

    A shallow embedding of the [Tamagotchi] dataclass (its stats, the
    time-driven decay of [tick], the five actions, [is_alive], [summary]
    and [_mood_text]), of [prompt_for_name] and the command loop of
    [run_cli], of the handlers of the window of [run_gui] and of the
    goblin's club animation, followed by the properties the specification
    states about them and by further properties read off the code.

    Modelling conventions.
    - Python [int] is [Z].
    - Python [str] is a list of Unicode code points ([pystr]); [len] is
      [length].  ASCII literals are written with [lit].
    - A [datetime] is the number of microseconds since some epoch (its
      resolution), a [timedelta] a number of microseconds.
    - [datetime.now()] is an explicit argument [now] of every method that
      reads the clock.
    - Python [float] values ([total_seconds() / 60], [minutes * rate]) are
      taken as exact rationals ([Q]); [int(x)] on them truncates towards
      zero.
    - A method is a computation in the state monad [M] over the instance. *)

From Stdlib Require Import ZArith QArith Qround List String Ascii Bool Lia.
From Stdlib Require Import DecimalString.
Import ListNotations.

Local Open Scope Z_scope.

(** ** Python strings *)

Definition pystr := list N.

Definition lit (s : string) : pystr :=
  List.map N_of_ascii (list_ascii_of_string s).

(** [sep.join(parts)] *)
Fixpoint join (sep : pystr) (parts : list pystr) : pystr :=
  match parts with
  | [] => []
  | [p] => p
  | p :: rest => p ++ sep ++ join sep rest
  end.

(** [s * n]: a negative count gives the empty string. *)
Definition str_mul (s : pystr) (n : Z) : pystr :=
  List.concat (List.repeat s (Z.to_nat n)).

(** [str(v)] for an int, which is also what the [d] presentation prints. *)
Definition str_of_int (v : Z) : pystr :=
  lit (NilZero.string_of_int (Z.to_int v)).

(** [format(s, ">w")]: right-aligned in a field of [w], padded with spaces,
    never truncated. *)
Definition rjust (w : nat) (s : pystr) : pystr :=
  List.repeat 32%N (w - List.length s)%nat ++ s.

(** [s.startswith(p)] *)
Fixpoint startswith (p s : pystr) : bool :=
  match p, s with
  | [], _ => true
  | _ :: _, [] => false
  | a :: p', b :: s' => N.eqb a b && startswith p' s'
  end.

(** [sub in s] *)
Fixpoint contains (sub s : pystr) : bool :=
  startswith sub s ||
  match s with
  | [] => false
  | _ :: s' => contains sub s'
  end.

(** ** Numbers *)

Definition MAX_STAT : Z := 100.
Definition MIN_STAT : Z := 0.

(** [clamp(value, low, high) = max(low, min(high, value))] *)
Definition clamp3 (value low high : Z) : Z := Z.max low (Z.min high value).

(** [clamp(value)] with the default bounds. *)
Definition clamp (value : Z) : Z := clamp3 value MIN_STAT MAX_STAT.

(** [int(x)] on a float: truncation towards zero. *)
Definition py_int (x : Q) : Z := Z.quot (Qnum x) (Zpos (Qden x)).

(** [timedelta.total_seconds()], from microseconds. *)
Definition total_seconds (elapsed : Z) : Q := inject_Z elapsed / inject_Z 1000000.

(** ** The instance and its methods *)

Record Tamagotchi : Type := mkTamagotchi {
  name : pystr;
  hunger : Z;
  happiness : Z;
  energy : Z;
  hygiene : Z;
  last_update : Z;
  hunger_decay : Z;
  happiness_decay : Z;
  energy_decay : Z;
  hygiene_decay : Z
}.

(** [Tamagotchi(name)] at clock reading [now]: the dataclass defaults. *)
Definition new (nm : pystr) (now : Z) : Tamagotchi :=
  mkTamagotchi nm 65 60 55 70 now 4 2 3 1.

Definition M (A : Type) : Type := Tamagotchi -> A * Tamagotchi.

Definition ret {A} (a : A) : M A := fun s => (a, s).

Definition bind {A B} (c : M A) (k : A -> M B) : M B :=
  fun s => let (a, s') := c s in k a s'.

Definition gets {A} (f : Tamagotchi -> A) : M A := fun s => (f s, s).

Definition run {A} (c : M A) (s : Tamagotchi) : Tamagotchi := snd (c s).

Definition result {A} (c : M A) (s : Tamagotchi) : A := fst (c s).

Declare Scope pet_scope.
Delimit Scope pet_scope with pet.
Notation "x <- c ;; k" := (bind c (fun x => k))
  (at level 61, c at next level, right associativity) : pet_scope.
Notation "c ;; k" := (bind c (fun _ => k))
  (at level 61, right associativity) : pet_scope.

(** Attribute assignments [self.f = v]. *)
Definition set_hunger (v : Z) : M unit := fun s =>
  (tt, mkTamagotchi (name s) v (happiness s) (energy s) (hygiene s)
         (last_update s) (hunger_decay s) (happiness_decay s)
         (energy_decay s) (hygiene_decay s)).

Definition set_happiness (v : Z) : M unit := fun s =>
  (tt, mkTamagotchi (name s) (hunger s) v (energy s) (hygiene s)
         (last_update s) (hunger_decay s) (happiness_decay s)
         (energy_decay s) (hygiene_decay s)).

Definition set_energy (v : Z) : M unit := fun s =>
  (tt, mkTamagotchi (name s) (hunger s) (happiness s) v (hygiene s)
         (last_update s) (hunger_decay s) (happiness_decay s)
         (energy_decay s) (hygiene_decay s)).

Definition set_hygiene (v : Z) : M unit := fun s =>
  (tt, mkTamagotchi (name s) (hunger s) (happiness s) (energy s) v
         (last_update s) (hunger_decay s) (happiness_decay s)
         (energy_decay s) (hygiene_decay s)).

Definition set_last_update (v : Z) : M unit := fun s =>
  (tt, mkTamagotchi (name s) (hunger s) (happiness s) (energy s) (hygiene s)
         v (hunger_decay s) (happiness_decay s)
         (energy_decay s) (hygiene_decay s)).

Section Methods.
Local Open Scope pet_scope.

(** The elapsed minutes [tick] computes from its two clock readings. *)
Definition minutes_between (last now : Z) : Q :=
  total_seconds (now - last) / inject_Z 60.

(** The local function [decay] of [tick]. *)
Definition decay (minutes : Q) (stat rate : Z) : Z :=
  clamp (stat - py_int (minutes * inject_Z rate)).

Definition tick (now : Z) : M unit :=
  last <- gets last_update ;;
  let minutes := minutes_between last now in
  if Qle_bool minutes 0 then ret tt
  else
    h <- gets hunger ;; hr <- gets hunger_decay ;;
    set_hunger (decay minutes h hr) ;;
    p <- gets happiness ;; pr <- gets happiness_decay ;;
    set_happiness (decay minutes p pr) ;;
    e <- gets energy ;; er <- gets energy_decay ;;
    set_energy (decay minutes e er) ;;
    g <- gets hygiene ;; gr <- gets hygiene_decay ;;
    set_hygiene (decay minutes g gr) ;;
    set_last_update now.

Definition is_alive : M bool :=
  h <- gets hunger ;; p <- gets happiness ;;
  e <- gets energy ;; g <- gets hygiene ;;
  ret (forallb (fun stat => MIN_STAT <? stat) [h; p; e; g]).

(** The bar glyph, U+2588 FULL BLOCK. *)
Definition glyph : pystr := [9608%N].

(** One line of [summary]:
    [f"{label:>10}: {value:3d} % |" + glyph * (value // 5)]. *)
Definition bar_line (label : pystr) (value : Z) : pystr :=
  (rjust 10 label ++ lit ": " ++ rjust 3 (str_of_int value) ++ lit " % |")
  ++ str_mul glyph (value / 5).

Definition summary : M pystr :=
  h <- gets hunger ;; p <- gets happiness ;;
  e <- gets energy ;; g <- gets hygiene ;;
  let bars := [(lit "Hunger", h); (lit "Happiness", p);
               (lit "Energy", e); (lit "Hygiene", g)] in
  ret (join [10%N] (List.map (fun lv => bar_line (fst lv) (snd lv)) bars)).

Definition _mood_text : M pystr :=
  h <- gets hunger ;; p <- gets happiness ;;
  e <- gets energy ;; g <- gets hygiene ;;
  nm <- gets name ;;
  let moods := [(h, lit "hungry"); (p, lit "bored");
                (e, lit "sleepy"); (g, lit "dirty")] in
  let needs := List.map snd (List.filter (fun vn => fst vn <? 30) moods) in
  match needs with
  | [] => ret (nm ++ lit " is feeling great!")
  | _ :: _ => ret (nm ++ lit " feels a bit " ++ join (lit " and ") needs ++ lit ".")
  end.

Definition feed (now : Z) : M pystr :=
  tick now ;;
  h <- gets hunger ;; set_hunger (clamp (h + 25)) ;;
  e <- gets energy ;; set_energy (clamp (e + 5)) ;;
  g <- gets hygiene ;; set_hygiene (clamp (g - 5)) ;;
  m <- _mood_text ;;
  ret (lit "Yummy! " ++ m).

Definition play (now : Z) : M pystr :=
  tick now ;;
  e <- gets energy ;;
  if e <? 15 then ret (lit "Too tired to play right now. Maybe a nap first?")
  else
    p <- gets happiness ;; set_happiness (clamp (p + 20)) ;;
    e <- gets energy ;; set_energy (clamp (e - 15)) ;;
    h <- gets hunger ;; set_hunger (clamp (h - 10)) ;;
    g <- gets hygiene ;; set_hygiene (clamp (g - 5)) ;;
    m <- _mood_text ;;
    ret (lit "That was fun! " ++ m).

Definition sleep (now : Z) : M pystr :=
  tick now ;;
  e <- gets energy ;; set_energy (clamp (e + 25)) ;;
  h <- gets hunger ;; set_hunger (clamp (h - 10)) ;;
  ret (lit "Zzz... Feeling rested now!").

Definition clean (now : Z) : M pystr :=
  tick now ;;
  g <- gets hygiene ;; set_hygiene (clamp (g + 30)) ;;
  p <- gets happiness ;; set_happiness (clamp (p - 5)) ;;
  ret (lit "Splash splash! All squeaky clean.").

Definition talk (now : Z) : M pystr :=
  tick now ;;
  _mood_text.

End Methods.

(** ** The command loop of [run_cli] *)

(** [a == b] on strings. *)
Fixpoint str_eqb (a b : pystr) : bool :=
  match a, b with
  | [], [] => true
  | x :: a', y :: b' => N.eqb x y && str_eqb a' b'
  | _, _ => false
  end.

(** Code points of the non-ASCII letters the German texts use. *)
Definition u_uml : pystr := [252%N].
Definition a_uml : pystr := [228%N].

Definition k_fuettern : pystr := lit "f" ++ u_uml ++ lit "ttern".

Definition CANONICAL_ACTIONS : list pystr :=
  [k_fuettern; lit "spielen"; lit "schlafen"; lit "waschen";
   lit "reden"; lit "status"; lit "ende"].

Definition available_actions : pystr :=
  (lit "Verf" ++ u_uml ++ lit "gbare Aktionen: ")
  ++ join (lit ", ") CANONICAL_ACTIONS.

Definition goodbye : pystr := lit "Bis zum n" ++ a_uml ++ lit "chsten Mal!".

Definition unknown_action : pystr :=
  lit "Unbekannte Aktion. Tippe 'hilfe' f" ++ u_uml
  ++ lit "r eine Liste der Befehle.".

Definition lost (nm : pystr) : pystr :=
  lit "Oh nein! " ++ nm
  ++ lit " hat es nicht geschafft. Versuche es noch einmal!".

(** What a key of the [actions] table is bound to. *)
Inductive Action : Type :=
| Feed | Play | Sleep | Clean | Talk | Summary | Help | Goodbye.

Definition actions : list (pystr * Action) :=
  [(k_fuettern, Feed); (lit "futter", Feed); (lit "feed", Feed);
   (lit "spielen", Play); (lit "play", Play);
   (lit "schlafen", Sleep); (lit "sleep", Sleep);
   (lit "waschen", Clean); (lit "clean", Clean);
   (lit "reden", Talk); (lit "talk", Talk);
   (lit "status", Summary);
   (lit "hilfe", Help); (lit "help", Help);
   (lit "quit", Goodbye); (lit "ende", Goodbye)].

(** [table.get(key)] *)
Fixpoint dict_get (table : list (pystr * Action)) (key : pystr) : option Action :=
  match table with
  | [] => None
  | (k, a) :: rest => if str_eqb k key then Some a else dict_get rest key
  end.

(** Calling the bound callable; [now] is the clock reading its [tick]
    takes, if it has one. *)
Definition perform (a : Action) (now : Z) : M pystr :=
  match a with
  | Feed => feed now
  | Play => play now
  | Sleep => sleep now
  | Clean => clean now
  | Talk => talk now
  | Summary => summary
  | Help => ret available_actions
  | Goodbye => ret goodbye
  end.

(** One answer to the prompt: the line typed, already stripped and
    lower-cased, and the clock readings of the loop's own [tick] and of the
    action's. *)
Record Input : Type := mkInput {
  command : pystr;
  now_loop : Z;
  now_action : Z
}.

Section Loop.
Local Open Scope pet_scope.

(** The [while pet.is_alive] loop over the answers typed so far; the value
    is the list of lines printed.  When the answers run out the loop is
    waiting at the prompt.  The greeting printed before the loop and the
    [KeyboardInterrupt] handler around it are left out. *)
Fixpoint cli_loop (inputs : list Input) : M (list pystr) :=
  alive <- is_alive ;;
  if negb alive then
    nm <- gets name ;; ret [lost nm]
  else
    text <- summary ;;
    let shown := 10%N :: text in
    match inputs with
    | [] => ret [shown]
    | i :: rest =>
        match command i with
        | [] => out <- cli_loop rest ;; ret (shown :: out)
        | _ :: _ =>
            tick (now_loop i) ;;
            match dict_get actions (command i) with
            | None => out <- cli_loop rest ;; ret (shown :: unknown_action :: out)
            | Some a =>
                response <- perform a (now_action i) ;;
                if str_eqb (command i) (lit "quit") || str_eqb (command i) (lit "ende")
                then ret [shown; response]
                else out <- cli_loop rest ;; ret (shown :: response :: out)
            end
        end
    end.

End Loop.

(** ** States *)

Definition in_range (v : Z) : Prop := 0 <= v <= 100.

(** The clamp invariant on the four stats. *)
Definition stats_ok (s : Tamagotchi) : Prop :=
  in_range (hunger s) /\ in_range (happiness s) /\
  in_range (energy s) /\ in_range (hygiene s).

(** The four stats of an instance, in declaration order. *)
Definition stats (s : Tamagotchi) : list Z :=
  [hunger s; happiness s; energy s; hygiene s].

(** States the program can be in: a pet made by [Tamagotchi(name)], then
    any sequence of [tick] and table actions at any clock readings. *)
Inductive reachable : Tamagotchi -> Prop :=
| reach_new nm now : reachable (new nm now)
| reach_tick s now : reachable s -> reachable (run (tick now) s)
| reach_perform s a now : reachable s -> reachable (run (perform a now) s).

(** [s] with its four stats replaced, everything else kept. *)
Definition with_stats (s : Tamagotchi) (h p e g : Z) : Tamagotchi :=
  mkTamagotchi (name s) h p e g (last_update s)
    (hunger_decay s) (happiness_decay s) (energy_decay s) (hygiene_decay s).

(** ** The actions as one update of the stats [tick] left *)

(** The text [play] returns when it refuses. *)
Definition too_tired : pystr :=
  lit "Too tired to play right now. Maybe a nap first?".

Definition fed (t : Tamagotchi) : Tamagotchi :=
  with_stats t (clamp (hunger t + 25)) (happiness t)
               (clamp (energy t + 5)) (clamp (hygiene t - 5)).

Definition played (t : Tamagotchi) : Tamagotchi :=
  with_stats t (clamp (hunger t - 10)) (clamp (happiness t + 20))
               (clamp (energy t - 15)) (clamp (hygiene t - 5)).

Definition slept (t : Tamagotchi) : Tamagotchi :=
  with_stats t (clamp (hunger t - 10)) (happiness t)
               (clamp (energy t + 25)) (hygiene t).

Definition cleaned (t : Tamagotchi) : Tamagotchi :=
  with_stats t (hunger t) (clamp (happiness t - 5))
               (energy t) (clamp (hygiene t + 30)).

(** ** The specification's formulas *)

(** The decay the specification words: the stat less the floor of
    elapsed minutes times rate, clamped. *)
Definition decay_floor (minutes : Q) (stat rate : Z) : Z :=
  clamp (stat - Qfloor (minutes * inject_Z rate)).

(** The descriptors the specification words: one per stat strictly below
    30, in declaration order. *)
Definition needs_of (s : Tamagotchi) : list pystr :=
  (if hunger s <? 30 then [lit "hungry"] else []) ++
  (if happiness s <? 30 then [lit "bored"] else []) ++
  (if energy s <? 30 then [lit "sleepy"] else []) ++
  (if hygiene s <? 30 then [lit "dirty"] else []).

(** ** Sample pets *)

(** A new pet created at clock reading 0. *)
Definition pip : Tamagotchi := new (lit "Pip") 0.


(** A pet with energy 14, and one with energy 15. *)
Definition weary : Tamagotchi := mkTamagotchi (lit "Pip") 65 60 14 70 0 4 2 3 1.
Definition ready : Tamagotchi := mkTamagotchi (lit "Pip") 65 60 15 70 0 4 2 3 1.

(** A pet whose hunger has reached 0. *)
Definition starved : Tamagotchi :=
  mkTamagotchi (lit "Pip") 0 60 55 70 0 4 2 3 1.

(** The pet of the specification's mood example. *)
Definition needy : Tamagotchi :=
  mkTamagotchi (lit "Pip") 10 80 10 80 0 4 2 3 1.

(** ** Successions of calls *)

Section Successions.
Local Open Scope pet_scope.

(** [tick] called once at each of the clock readings, in order. *)
Fixpoint ticks (nows : list Z) : M unit :=
  match nows with
  | [] => ret tt
  | now :: later => tick now ;; ticks later
  end.

End Successions.

(** Every reading comes less than [d] microseconds after the latest
    reading so far, starting from [last]. *)
Fixpoint spaced (d last : Z) (nows : list Z) : Prop :=
  match nows with
  | [] => True
  | now :: later => now < last + d /\ spaced d (Z.max last now) later
  end.

(** The decay rates are those of the dataclass. *)
Definition default_rates (s : Tamagotchi) : Prop :=
  hunger_decay s = 4 /\ happiness_decay s = 2 /\
  energy_decay s = 3 /\ hygiene_decay s = 1.

(** The decay rates of an instance, in declaration order. *)
Definition rates (s : Tamagotchi) : list Z :=
  [hunger_decay s; happiness_decay s; energy_decay s; hygiene_decay s].

(** Every decay rate lies between [lo] and [hi]. *)
Definition rates_within (lo hi : Z) (s : Tamagotchi) : Prop :=
  Forall (fun r => lo <= r <= hi) (rates s).

(** No decay rate is negative. *)
Definition rates_nonneg (s : Tamagotchi) : Prop :=
  Forall (fun r => 0 <= r) (rates s).

(** [command in {"quit", "ende"}] *)
Definition is_quit (c : pystr) : bool :=
  str_eqb c (lit "quit") || str_eqb c (lit "ende").

(** The answer is the empty line, which the loop skips. *)
Definition is_blank (i : Input) : bool :=
  match command i with
  | [] => true
  | _ :: _ => false
  end.

(** ** [prompt_for_name] *)

(** [c.isspace()]: the code points Python counts as whitespace. *)
Definition isspace (c : N) : bool :=
  ((9 <=? c) && (c <=? 13) || (28 <=? c) && (c <=? 32)
   || (c =? 133) || (c =? 160) || (c =? 5760)
   || (8192 <=? c) && (c <=? 8202)
   || (c =? 8232) || (c =? 8233) || (c =? 8239) || (c =? 8287)
   || (c =? 12288))%N.

(** [s.lstrip()] *)
Fixpoint lstrip (s : pystr) : pystr :=
  match s with
  | [] => []
  | c :: s' => if isspace c then lstrip s' else s
  end.

(** [s.rstrip()] *)
Definition rstrip (s : pystr) : pystr := List.rev (lstrip (List.rev s)).

(** [s.strip()] *)
Definition strip (s : pystr) : pystr := lstrip (rstrip s).

Definition name_please : pystr := lit "Bitte gib einen Namen ein.".

(** [prompt_for_name] over the lines typed so far: the name returned, if
    one has been accepted, and the lines printed.  The prompt text of
    [input] itself is left out. *)
Fixpoint prompt_for_name (lines : list pystr) : option pystr * list pystr :=
  match lines with
  | [] => (None, [])
  | line :: later =>
      match strip line with
      | [] => let (nm, out) := prompt_for_name later in (nm, name_please :: out)
      | c :: cs => (Some (c :: cs), [])
      end
  end.

(** ** The window of [run_gui]: [TamagotchiWindow]

    The window's data attributes are modelled; what it asks of the toolkit
    (a timer, the game-over call on the animation window, a message box)
    is returned as a list of requests, in the order of the calls.  The two
    dictionaries over the stat attributes are filled once by
    [_build_layout] with the same four keys, and are total maps over
    them. *)

(** The keys ["hunger"], ["happiness"], ["energy"], ["hygiene"]. *)
Inductive Attribute : Type := AHunger | AHappiness | AEnergy | AHygiene.

(** The order [_build_layout] inserts them in. *)
Definition attributes : list Attribute :=
  [AHunger; AHappiness; AEnergy; AHygiene].

Definition Attribute_eqb (a b : Attribute) : bool :=
  match a, b with
  | AHunger, AHunger | AHappiness, AHappiness
  | AEnergy, AEnergy | AHygiene, AHygiene => true
  | _, _ => false
  end.

(** [getattr(pet, attribute)] *)
Definition getattr (s : Tamagotchi) (a : Attribute) : Z :=
  match a with
  | AHunger => hunger s
  | AHappiness => happiness s
  | AEnergy => energy s
  | AHygiene => hygiene s
  end.

(** A call to the toolkit. *)
Inductive Request : Type :=
| After (ms : Z)                       (* [self.after(ms, self._update_loop)] *)
| AnimationGameOver                    (* [self.animation_window.on_game_over()] *)
| ShowInfo (title message : pystr).    (* [messagebox.showinfo(title, message)] *)

Record Window : Type := mkWindow {
  pet : Tamagotchi;
  message_var : pystr;
  stat_labels : Attribute -> pystr;
  progress_bars : Attribute -> Z;
  buttons : list (pystr * bool)        (* text, and whether it is enabled *)
}.

Definition welcome : pystr :=
  lit "Willkommen! Klicke auf eine Aktion, um loszulegen.".

Definition game_over_message (nm : pystr) : pystr :=
  lit "Oh nein! " ++ nm
  ++ lit " hat es nicht geschafft. Starte ein neues Spiel!".

(** The texts of [button_specs] with the callable each is bound to. *)
Definition button_specs : list (pystr * Action) :=
  [(lit "F" ++ u_uml ++ lit "ttern", Feed); (lit "Spielen", Play);
   (lit "Schlafen", Sleep); (lit "Waschen", Clean);
   (lit "Reden", Talk); (lit "Status", Summary)].

(** The window after [_build_layout]: empty labels, bars at 0, the six
    buttons enabled. *)
Definition built (p : Tamagotchi) : Window :=
  mkWindow p welcome (fun _ => []) (fun _ => 0)
    (List.map (fun ta => (fst ta, true)) button_specs).

(** One turn of the loop of [_refresh_stats]. *)
Definition refresh_one (w : Window) (attribute : Attribute) : Window :=
  let value := getattr (pet w) attribute in
  mkWindow (pet w) (message_var w)
    (fun a => if Attribute_eqb a attribute
              then rjust 3 (str_of_int value) ++ lit " %"
              else stat_labels w a)
    (fun a => if Attribute_eqb a attribute then value else progress_bars w a)
    (buttons w).

Definition _refresh_stats (w : Window) : Window :=
  List.fold_left refresh_one attributes w.

Definition _handle_game_over (w : Window) : Window * list Request :=
  (mkWindow (pet w) (game_over_message (name (pet w)))
     (stat_labels w) (progress_bars w)
     (List.map (fun tb => (fst tb, false)) (buttons w)),
   [AnimationGameOver; ShowInfo (lit "Tamagotchi") (lost (name (pet w)))]).

(** [_perform_action(action)], the action's [tick] reading the clock at
    [now]. *)
Definition _perform_action (a : Action) (now : Z) (w : Window)
  : Window * list Request :=
  let (response, p) := perform a now (pet w) in
  let w1 := mkWindow p response (stat_labels w) (progress_bars w) (buttons w) in
  let w2 := _refresh_stats w1 in
  if negb (result is_alive (pet w2)) then _handle_game_over w2 else (w2, []).

Definition _update_loop (now : Z) (w : Window) : Window * list Request :=
  let p := run (tick now) (pet w) in
  let w1 := mkWindow p (message_var w) (stat_labels w) (progress_bars w)
              (buttons w) in
  let w2 := _refresh_stats w1 in
  if result is_alive (pet w2) then (w2, [After 2000]) else _handle_game_over w2.

(** [TamagotchiWindow(pet)]: the layout, a first refresh and the first
    round of [_update_loop]. *)
Definition open_window (p : Tamagotchi) (now : Z) : Window * list Request :=
  _update_loop now (_refresh_stats (built p)).

(** The timer rounds of [_update_loop] at the given clock readings, for a
    window whose next round is pending: a round runs only if the round
    before asked for it.  The requests returned are those of the last
    round run (the pending one when no round has run). *)
Fixpoint update_rounds (nows : list Z) (w : Window) : Window * list Request :=
  match nows with
  | [] => (w, [After 2000])
  | now :: later =>
      let (w', requests) := _update_loop now w in
      match requests with
      | [After _] => update_rounds later w'
      | _ => (w', requests)
      end
  end.

(** The labels and the bars show the pet's stats. *)
Definition shows_pet (w : Window) : Prop :=
  forall a,
    progress_bars w a = getattr (pet w) a /\
    stat_labels w a = rjust 3 (str_of_int (getattr (pet w) a)) ++ lit " %".

Definition all_disabled (w : Window) : Prop :=
  Forall (fun tb => snd tb = false) (buttons w).

(** ** The goblin's club of [TamagotchiAnimation]

    [goblin_club_y] is how far [canvas.move] has moved the club, in
    pixels down from where [_draw_goblin] drew it; the moves [_animate]
    applies to the whole character are not counted. *)

Record Goblin : Type := mkGoblin {
  goblin_club_direction : Z;
  goblin_club_offset : Z;
  goblin_club_y : Z
}.

(** The attributes [_draw_goblin] sets. *)
Definition drawn_goblin : Goblin := mkGoblin 1 0 0.

(** One frame, for a goblin that has been drawn (the club exists). *)
Definition _animate_goblin (g : Goblin) : Goblin :=
  let direction :=
    if 8 <=? goblin_club_offset g then -1
    else if goblin_club_offset g <=? -2 then 1
    else goblin_club_direction g in
  mkGoblin direction
           (goblin_club_offset g + direction)
           (goblin_club_y g + direction).

(** * Properties *)

(** ** Arithmetic of [clamp] and of the elapsed time *)

Lemma clamp_in_range v : in_range (clamp v).
Proof. unfold in_range, clamp, clamp3, MIN_STAT, MAX_STAT. lia. Qed.

Lemma minutes_num last now : Qnum (minutes_between last now) = now - last.
Proof. unfold minutes_between, total_seconds. cbn. lia. Qed.

Lemma minutes_den last now :
  Qden (minutes_between last now) = 60000000%positive.
Proof. reflexivity. Qed.

Lemma minutes_nonpos last now :
  Qle_bool (minutes_between last now) 0 = true <-> now <= last.
Proof.
  unfold Qle_bool. rewrite minutes_num. cbn [Qnum Qden].
  rewrite Z.leb_le. lia.
Qed.

Lemma minutes_pos last now :
  Qle_bool (minutes_between last now) 0 = false <-> last < now.
Proof.
  rewrite <- Bool.not_true_iff_false, minutes_nonpos. lia.
Qed.

(** [int(minutes * rate)] in integers: the quotient, rounded towards zero,
    of the elapsed microseconds times the rate by the microseconds of a
    minute. *)
Lemma py_int_minutes last now rate :
  py_int (minutes_between last now * inject_Z rate)
  = Z.quot ((now - last) * rate) 60000000.
Proof.
  unfold py_int. cbn [Qmult Qnum Qden inject_Z].
  rewrite minutes_num, minutes_den. reflexivity.
Qed.

Lemma py_int_floor q : 0 <= Qnum q -> py_int q = Qfloor q.
Proof.
  destruct q as [n d]. cbn. intros Hn.
  apply Z.quot_div_nonneg; lia.
Qed.

Lemma minutes_rate_nonneg last now rate :
  last < now -> 0 <= rate ->
  0 <= Qnum (minutes_between last now * inject_Z rate).
Proof.
  intros Hlt Hr. cbn [Qmult Qnum inject_Z]. rewrite minutes_num. nia.
Qed.

(** ** What [tick] does *)

Lemma tick_noop s now : now <= last_update s -> tick now s = (tt, s).
Proof.
  intros Hle. unfold tick, bind, gets. cbn.
  apply minutes_nonpos in Hle. rewrite Hle. reflexivity.
Qed.

Lemma tick_decays s now :
  last_update s < now ->
  let m := minutes_between (last_update s) now in
  tick now s =
  (tt, mkTamagotchi (name s)
         (decay m (hunger s) (hunger_decay s))
         (decay m (happiness s) (happiness_decay s))
         (decay m (energy s) (energy_decay s))
         (decay m (hygiene s) (hygiene_decay s))
         now
         (hunger_decay s) (happiness_decay s)
         (energy_decay s) (hygiene_decay s)).
Proof.
  intros Hlt m. unfold tick, bind, gets. cbn.
  apply minutes_pos in Hlt. rewrite Hlt. reflexivity.
Qed.

Lemma tick_runs s now : tick now s = (tt, run (tick now) s).
Proof. unfold run. destruct (tick now s) as [[] t]. reflexivity. Qed.

Lemma tick_keeps_range s now : stats_ok s -> stats_ok (run (tick now) s).
Proof.
  intros Hs. destruct (Z_le_gt_dec now (last_update s)) as [Hle | Hgt].
  - unfold run. rewrite tick_noop by exact Hle. exact Hs.
  - unfold run. rewrite tick_decays by lia. cbn.
    unfold stats_ok, decay; cbn. auto using clamp_in_range.
Qed.

(** ** The queries do not write *)

Lemma mood_text_runs s : _mood_text s = (result _mood_text s, s).
Proof.
  unfold result, _mood_text, bind, gets, ret. cbn.
  destruct (hunger s <? 30), (happiness s <? 30),
           (energy s <? 30), (hygiene s <? 30); reflexivity.
Qed.

Lemma is_alive_runs s : is_alive s = (result is_alive s, s).
Proof. reflexivity. Qed.

(** ** The actions, as one state update after [tick] *)

Lemma feed_eq s now :
  let t := run (tick now) s in
  feed now s = (lit "Yummy! " ++ result _mood_text (fed t), fed t).
Proof.
  intros t. unfold feed, bind at 1. rewrite tick_runs. fold t.
  unfold bind, gets, set_hunger, set_energy, set_hygiene, ret.
  cbn -[_mood_text clamp lit]. fold (fed t).
  rewrite mood_text_runs. reflexivity.
Qed.

Lemma play_refused s now :
  let t := run (tick now) s in
  energy t < 15 -> play now s = (too_tired, t).
Proof.
  intros t Hlow. unfold play, bind at 1. rewrite tick_runs. fold t.
  unfold bind at 1, gets. apply Z.ltb_lt in Hlow. rewrite Hlow. reflexivity.
Qed.

Lemma play_accepted s now :
  let t := run (tick now) s in
  15 <= energy t ->
  play now s = (lit "That was fun! " ++ result _mood_text (played t), played t).
Proof.
  intros t Hok. unfold play, bind at 1. rewrite tick_runs. fold t.
  unfold bind at 1, gets. apply Z.ltb_ge in Hok. rewrite Hok.
  unfold bind, gets, set_hunger, set_energy, set_hygiene, set_happiness, ret.
  cbn -[_mood_text clamp lit]. fold (played t).
  rewrite mood_text_runs. reflexivity.
Qed.

Lemma sleep_eq s now :
  let t := run (tick now) s in
  sleep now s = (lit "Zzz... Feeling rested now!", slept t).
Proof.
  intros t. unfold sleep, bind at 1. rewrite tick_runs. fold t. reflexivity.
Qed.

Lemma clean_eq s now :
  let t := run (tick now) s in
  clean now s = (lit "Splash splash! All squeaky clean.", cleaned t).
Proof.
  intros t. unfold clean, bind at 1. rewrite tick_runs. fold t. reflexivity.
Qed.

Lemma talk_eq s now :
  let t := run (tick now) s in
  talk now s = (result _mood_text t, t).
Proof.
  intros t. unfold talk, bind at 1. rewrite tick_runs. fold t.
  apply mood_text_runs.
Qed.

(** ** The clamp invariant *)

Lemma new_in_range nm now : stats_ok (new nm now).
Proof. unfold stats_ok, in_range. cbn. lia. Qed.

Lemma play_cases s now :
  run (play now) s = run (tick now) s \/
  run (play now) s = played (run (tick now) s).
Proof.
  destruct (Z_lt_ge_dec (energy (run (tick now) s)) 15) as [Hlow | Hok].
  - left. unfold run at 1. rewrite play_refused by exact Hlow. reflexivity.
  - right. unfold run at 1. rewrite play_accepted by lia. reflexivity.
Qed.

Lemma perform_keeps_range s a now :
  stats_ok s -> stats_ok (run (perform a now) s).
Proof.
  intros Hs. pose proof (tick_keeps_range s now Hs) as Ht.
  destruct Ht as (Hh & Hp & He & Hg).
  destruct a; cbn [perform].
  - unfold run at 1. rewrite feed_eq.
    unfold stats_ok, fed; cbn. auto using clamp_in_range.
  - destruct (play_cases s now) as [-> | ->].
    + unfold stats_ok; auto.
    + unfold stats_ok, played; cbn. auto using clamp_in_range.
  - unfold run at 1. rewrite sleep_eq.
    unfold stats_ok, slept; cbn. auto using clamp_in_range.
  - unfold run at 1. rewrite clean_eq.
    unfold stats_ok, cleaned; cbn. auto using clamp_in_range.
  - unfold run at 1. rewrite talk_eq. unfold stats_ok; auto.
  - exact Hs.
  - exact Hs.
  - exact Hs.
Qed.

Lemma reachable_in_range s : reachable s -> stats_ok s.
Proof.
  induction 1 as [nm now | s now _ IH | s a now _ IH].
  - apply new_in_range.
  - apply tick_keeps_range, IH.
  - apply perform_keeps_range, IH.
Qed.

(** C1.  In every state the program can reach, and after any further
    operation on it at any clock reading ([tick], or any entry of the
    action table: feed, play, sleep, clean, talk, status), each of the four
    stats lies in the closed range from 0 to 100. *)
Theorem stats_always_in_range (s : Tamagotchi) :
  reachable s ->
  stats_ok s /\
  (forall now, stats_ok (run (tick now) s)) /\
  (forall a now, stats_ok (run (perform a now) s)).
Proof.
  intros Hr. pose proof (reachable_in_range s Hr) as Hs.
  split; [exact Hs | split].
  - intros now. apply tick_keeps_range, Hs.
  - intros a now. apply perform_keeps_range, Hs.
Qed.

Lemma stats_always_in_range_witness :
  reachable (run (perform Feed 600000000) pip) /\
  stats_ok (run (perform Feed 600000000) pip).
Proof.
  assert (Hr : reachable (run (perform Feed 600000000) pip))
    by (apply reach_perform, reach_new).
  split; [exact Hr | exact (proj1 (stats_always_in_range _ Hr))].
Defined.

(** ** Decay *)




(** C4.  [tick] at a clock reading that is not after [last_update] (zero
    or negative elapsed minutes) changes nothing: the whole instance, its
    stats and [last_update] included, is as before. *)
Theorem tick_without_elapsed_time (s : Tamagotchi) (now : Z) :
  now <= last_update s ->
  run (tick now) s = s /\
  stats (run (tick now) s) = stats s /\
  last_update (run (tick now) s) = last_update s.
Proof.
  intros Hle. unfold run. rewrite tick_noop by exact Hle.
  repeat split; reflexivity.
Qed.

Lemma tick_without_elapsed_time_witness :
  run (tick (-5)) pip = pip /\ run (tick 0) pip = pip.
Proof.
  split.
  - apply (proj1 (tick_without_elapsed_time pip (-5) ltac:(cbn; lia))).
  - apply (proj1 (tick_without_elapsed_time pip 0 ltac:(cbn; lia))).
Defined.

(** ** The actions *)

(** C3.  After its leading [tick], [play] looks at energy.  Strictly below
    15 it writes no stat (the instance is the one [tick] left) and returns
    the refusal text, which is not a fun text.  From 15 on it sets
    happiness +20, energy -15, hunger -10, hygiene -5, each clamped, and
    returns the fun prefix followed by the mood text of the new stats. *)
Theorem play_threshold (s : Tamagotchi) (now : Z) :
  let t := run (tick now) s in
  (energy t < 15 ->
     play now s = (too_tired, t) /\
     stats (run (play now) s) = stats t /\
     startswith (lit "That was fun! ") (result (play now) s) = false) /\
  (15 <= energy t ->
     play now s
     = (lit "That was fun! " ++ result _mood_text (played t), played t) /\
     stats (run (play now) s)
     = [clamp (hunger t - 10); clamp (happiness t + 20);
        clamp (energy t - 15); clamp (hygiene t - 5)] /\
     startswith (lit "That was fun! ") (result (play now) s) = true).
Proof.
  intros t. split.
  - intros Hlow. unfold run at 1, result.
    rewrite play_refused by exact Hlow. repeat split.
  - intros Hok. unfold run at 1, result.
    rewrite play_accepted by exact Hok. repeat split.
Qed.

Lemma play_threshold_witness :
  (energy (run (tick 0) weary) < 15 /\ stats (run (play 0) weary) = [65; 60; 14; 70]) /\
  (15 <= energy (run (tick 0) ready) /\ stats (run (play 0) ready) = [55; 80; 0; 65]).
Proof.
  split.
  - assert (H : energy (run (tick 0) weary) < 15) by (cbn; lia).
    split; [exact H | ].
    exact (proj1 (proj2 (proj1 (play_threshold weary 0) H))).
  - assert (H : 15 <= energy (run (tick 0) ready)) by (cbn; lia).
    split; [exact H | ].
    exact (proj1 (proj2 (proj2 (play_threshold ready 0) H))).
Defined.

(** C5.  After the leading [tick], with [t] the instance it leaves:
    [feed] sets hunger +25, energy +5, hygiene -5 (clamped), keeps
    happiness, and returns the fed prefix followed by the mood text;
    [sleep] sets energy +25, hunger -10 and returns its fixed text;
    [clean] sets hygiene +30, happiness -5 and returns its fixed text;
    [talk] changes nothing and returns the mood text.  Name, rates and
    [last_update] are as [tick] left them. *)
Theorem unconditional_actions (s : Tamagotchi) (now : Z) :
  let t := run (tick now) s in
  feed now s
  = (lit "Yummy! " ++ result _mood_text (run (feed now) s),
     with_stats t (clamp (hunger t + 25)) (happiness t)
                  (clamp (energy t + 5)) (clamp (hygiene t - 5))) /\
  sleep now s
  = (lit "Zzz... Feeling rested now!",
     with_stats t (clamp (hunger t - 10)) (happiness t)
                  (clamp (energy t + 25)) (hygiene t)) /\
  clean now s
  = (lit "Splash splash! All squeaky clean.",
     with_stats t (hunger t) (clamp (happiness t - 5))
                  (energy t) (clamp (hygiene t + 30))) /\
  talk now s = (result _mood_text t, t).
Proof.
  intros t. repeat split.
  - unfold run at 1. rewrite feed_eq. reflexivity.
  - apply sleep_eq.
  - apply clean_eq.
  - apply talk_eq.
Qed.

(** C10.  When [play] refuses, the instance it leaves is the one its
    leading [tick] produced: with positive elapsed time the four stats
    have decayed and [last_update] is [now].  The state before the call
    is not restored: a pet with energy 15 asked to play one minute later
    is refused and left with decayed stats. *)
Theorem refused_play_keeps_tick (s : Tamagotchi) (now : Z) :
  energy (run (tick now) s) < 15 ->
  result (play now) s = too_tired /\
  run (play now) s = run (tick now) s /\
  (last_update s < now ->
     let m := minutes_between (last_update s) now in
     last_update (run (play now) s) = now /\
     stats (run (play now) s)
     = [decay m (hunger s) (hunger_decay s);
        decay m (happiness s) (happiness_decay s);
        decay m (energy s) (energy_decay s);
        decay m (hygiene s) (hygiene_decay s)]) /\
  (energy (run (tick 60000000) ready) < 15 /\
   run (play 60000000) ready <> ready /\
   stats (run (play 60000000) ready) = [61; 58; 12; 69] /\
   last_update (run (play 60000000) ready) = 60000000).
Proof.
  intros Hlow.
  assert (E : play now s = (too_tired, run (tick now) s))
    by (apply play_refused; exact Hlow).
  assert (R : run (play now) s = run (tick now) s)
    by (unfold run at 1; rewrite E; reflexivity).
  split; [unfold result; rewrite E; reflexivity | ].
  split; [exact R | split].
  - intros Hlt m. rewrite R. unfold run. rewrite tick_decays by exact Hlt.
    split; reflexivity.
  - split; [cbn; lia | ].
    split; [ | split; reflexivity].
    intros Heq. apply (f_equal last_update) in Heq.
    vm_compute in Heq. discriminate.
Qed.

Lemma refused_play_keeps_tick_witness :
  energy (run (tick 60000000) ready) < 15 /\
  run (play 60000000) ready = run (tick 60000000) ready.
Proof.
  assert (H : energy (run (tick 60000000) ready) < 15) by (cbn; lia).
  split; [exact H | ].
  exact (proj1 (proj2 (refused_play_keeps_tick ready 60000000 H))).
Defined.

(** ** Liveness *)

Lemma is_alive_true s :
  result is_alive s = true <->
  0 < hunger s /\ 0 < happiness s /\ 0 < energy s /\ 0 < hygiene s.
Proof.
  unfold result, is_alive, bind, gets, ret, MIN_STAT. cbn.
  rewrite !Bool.andb_true_iff, !Z.ltb_lt. tauto.
Qed.

(** C6.  [is_alive] writes nothing and is computed from the stats alone:
    it is true exactly when the four stats are strictly positive, and, on
    an instance whose stats are within 0 and 100, false exactly when at
    least one of them equals 0. *)
Theorem is_alive_iff (s : Tamagotchi) :
  run is_alive s = s /\
  (result is_alive s = true <->
   0 < hunger s /\ 0 < happiness s /\ 0 < energy s /\ 0 < hygiene s) /\
  (stats_ok s ->
   (result is_alive s = false <->
    hunger s = 0 \/ happiness s = 0 \/ energy s = 0 \/ hygiene s = 0)).
Proof.
  split; [reflexivity | split; [apply is_alive_true | ]].
  intros (Hh & Hp & He & Hg). unfold in_range in *.
  rewrite <- Bool.not_true_iff_false, is_alive_true. lia.
Qed.

Lemma is_alive_iff_witness :
  stats_ok starved /\ result is_alive starved = false.
Proof.
  assert (Hs : stats_ok starved) by (unfold stats_ok, in_range; cbn; lia).
  split; [exact Hs | ].
  apply (proj2 (proj2 (is_alive_iff starved)) Hs). left. reflexivity.
Defined.

(** C8, as stated, fails: the actions carry no liveness test.  On a pet
    whose hunger is 0, [feed] at the clock reading of [last_update] raises
    hunger to 25, energy to 60 and lowers hygiene to 65. *)
Lemma game_over_counterexample :
  In 0 (stats starved) /\
  result is_alive starved = false /\
  stats (run (perform Feed 0) starved) = [25; 60; 60; 65] /\
  stats (run (perform Feed 0) starved) <> stats starved.
Proof.
  split; [left; reflexivity | ].
  split; [reflexivity | ].
  split; [reflexivity | ].
  vm_compute. discriminate.
Qed.

Lemma cli_loop_stops s inputs :
  result is_alive s = false -> cli_loop inputs s = ([lost (name s)], s).
Proof.
  intros Hdead.
  destruct inputs; cbn [cli_loop]; unfold bind at 1;
    rewrite is_alive_runs, Hdead; reflexivity.
Qed.

(** C8, amended.  Game over is terminal where the adapter observes it:
    on an instance with a stat equal to 0, [is_alive] is false, and the
    command loop, whatever is typed afterwards, prints the lost message
    and leaves the instance as it is, performing no [tick] and no action.
    The queries [is_alive] and [summary] are defined there and write
    nothing. *)
Theorem game_over_ends_loop (s : Tamagotchi) :
  In 0 (stats s) ->
  result is_alive s = false /\
  (forall inputs, cli_loop inputs s = ([lost (name s)], s)) /\
  run is_alive s = s /\
  run summary s = s.
Proof.
  intros Hzero.
  assert (Hdead : result is_alive s = false).
  { rewrite <- Bool.not_true_iff_false.
    intros Halive. apply is_alive_true in Halive.
    unfold stats in Hzero. cbn in Hzero. lia. }
  split; [exact Hdead | ].
  split; [intros inputs; apply cli_loop_stops, Hdead | ].
  split; reflexivity.
Qed.

Lemma game_over_ends_loop_witness :
  In 0 (stats starved) /\
  run (cli_loop [mkInput (lit "feed") 0 0; mkInput (lit "play") 5 6]) starved
  = starved.
Proof.
  assert (Hz : In 0 (stats starved)) by (left; reflexivity).
  split; [exact Hz | ].
  unfold run.
  rewrite (proj1 (proj2 (game_over_ends_loop starved Hz))). reflexivity.
Defined.

(** ** Mood text *)

(** C7.  [_mood_text] writes nothing.  Its text lists, after the name, the
    descriptor of each stat strictly below 30 (hungry, bored, sleepy, dirty,
    in the order hunger, happiness, energy, hygiene) joined by [" and "] and
    closed by a full stop; a descriptor is listed exactly when its stat is
    below 30; when the four stats are 30 or more the text is the
    feeling-great sentence.  Hunger 10, happiness 80, energy 10, hygiene 80
    give "hungry and sleepy", without bored and dirty. *)
Theorem mood_text_lists_needs (s : Tamagotchi) :
  run _mood_text s = s /\
  result _mood_text s =
    match needs_of s with
    | [] => name s ++ lit " is feeling great!"
    | _ :: _ =>
        name s ++ lit " feels a bit " ++ join (lit " and ") (needs_of s) ++ lit "."
    end /\
  (In (lit "hungry") (needs_of s) <-> hunger s < 30) /\
  (In (lit "bored") (needs_of s) <-> happiness s < 30) /\
  (In (lit "sleepy") (needs_of s) <-> energy s < 30) /\
  (In (lit "dirty") (needs_of s) <-> hygiene s < 30) /\
  (30 <= hunger s -> 30 <= happiness s -> 30 <= energy s -> 30 <= hygiene s ->
   result _mood_text s = name s ++ lit " is feeling great!") /\
  (hunger s = 10 -> happiness s = 80 -> energy s = 10 -> hygiene s = 80 ->
   needs_of s = [lit "hungry"; lit "sleepy"] /\
   result _mood_text s = name s ++ lit " feels a bit hungry and sleepy.").
Proof.
  split.
  { unfold run. rewrite mood_text_runs. reflexivity. }
  split.
  { unfold result, _mood_text, needs_of, bind, gets, ret. cbn.
    destruct (hunger s <? 30), (happiness s <? 30),
             (energy s <? 30), (hygiene s <? 30); reflexivity. }
  assert (Hin : forall (d : pystr) (b1 b2 b3 b4 : bool),
            In d ((if b1 then [lit "hungry"] else []) ++
                  (if b2 then [lit "bored"] else []) ++
                  (if b3 then [lit "sleepy"] else []) ++
                  (if b4 then [lit "dirty"] else []))
            <-> (b1 = true /\ d = lit "hungry") \/ (b2 = true /\ d = lit "bored")
                \/ (b3 = true /\ d = lit "sleepy") \/ (b4 = true /\ d = lit "dirty")).
  { intros d [] [] [] []; cbn; intuition (auto; discriminate). }
  unfold needs_of.
  split; [rewrite Hin, <- Z.ltb_lt; intuition (auto; discriminate) | ].
  split; [rewrite Hin, <- Z.ltb_lt; intuition (auto; discriminate) | ].
  split; [rewrite Hin, <- Z.ltb_lt; intuition (auto; discriminate) | ].
  split; [rewrite Hin, <- Z.ltb_lt; intuition (auto; discriminate) | ].
  split.
  - intros Hh Hp He Hg. unfold result, _mood_text, bind, gets, ret. cbn.
    apply Z.ltb_ge in Hh, Hp, He, Hg. rewrite Hh, Hp, He, Hg. reflexivity.
  - intros Hh Hp He Hg. split.
    + rewrite Hh, Hp, He, Hg. reflexivity.
    + unfold result, _mood_text, bind, gets, ret. cbn.
      rewrite Hh, Hp, He, Hg. reflexivity.
Qed.

Lemma mood_text_lists_needs_witness :
  result _mood_text needy = lit "Pip feels a bit hungry and sleepy." /\
  contains (lit "hungry and sleepy") (result _mood_text needy) = true /\
  contains (lit "bored") (result _mood_text needy) = false /\
  contains (lit "dirty") (result _mood_text needy) = false.
Proof.
  split.
  - apply (proj2 (proj2 (proj2 (proj2 (proj2 (proj2 (proj2
             (mood_text_lists_needs needy))))))));
      reflexivity.
  - repeat split; reflexivity.
Defined.

(** ** Status display *)







(** * Further properties of the code *)

(** ** [clamp] *)

(** X1.  With [low <= high], [clamp(value, low, high)] lies between the
    bounds, returns a value already between them unchanged, is monotone in
    the value and idempotent; with [low > high] it returns [low]. *)
Theorem clamp3_bounds (low high : Z) :
  (low <= high ->
     (forall v, low <= clamp3 v low high <= high) /\
     (forall v, low <= v <= high -> clamp3 v low high = v) /\
     (forall v w, v <= w -> clamp3 v low high <= clamp3 w low high) /\
     (forall v, clamp3 (clamp3 v low high) low high = clamp3 v low high)) /\
  (high < low -> forall v, clamp3 v low high = low).
Proof.
  unfold clamp3. split.
  - intros Hle. repeat split; intros; lia.
  - intros Hgt v. lia.
Qed.

Lemma clamp3_bounds_witness :
  0 <= clamp3 115 0 100 <= 100 /\ clamp3 7 5 3 = 5.
Proof.
  split.
  - exact (proj1 (proj1 (clamp3_bounds 0 100) ltac:(lia)) 115).
  - exact (proj2 (clamp3_bounds 5 3) ltac:(lia) 7).
Defined.

(** ** [tick] over time *)

Lemma tick_last_update s now :
  last_update (run (tick now) s) = Z.max (last_update s) now.
Proof.
  destruct (Z_le_gt_dec now (last_update s)) as [Hle | Hgt]; unfold run.
  - rewrite tick_noop by exact Hle. cbn. lia.
  - rewrite tick_decays by lia. cbn. lia.
Qed.

Lemma tick_frame s now :
  name (run (tick now) s) = name s /\ rates (run (tick now) s) = rates s.
Proof.
  destruct (Z_le_gt_dec now (last_update s)) as [Hle | Hgt]; unfold run.
  - rewrite tick_noop by exact Hle. split; reflexivity.
  - rewrite tick_decays by lia. split; reflexivity.
Qed.

Lemma perform_cases s a now :
  let t := run (tick now) s in
  run (perform a now) s = s \/
  run (perform a now) s = t \/
  exists h p e g, run (perform a now) s = with_stats t h p e g.
Proof.
  intros t. destruct a; cbn [perform].
  - right; right. unfold run at 1. rewrite feed_eq.
    do 4 eexists. reflexivity.
  - destruct (play_cases s now) as [-> | ->].
    + right; left. reflexivity.
    + right; right. do 4 eexists. reflexivity.
  - right; right. unfold run at 1. rewrite sleep_eq.
    do 4 eexists. reflexivity.
  - right; right. unfold run at 1. rewrite clean_eq.
    do 4 eexists. reflexivity.
  - right; left. unfold run at 1. rewrite talk_eq. reflexivity.
  - left. reflexivity.
  - left. reflexivity.
  - left. reflexivity.
Qed.

Lemma perform_frame s a now :
  name (run (perform a now) s) = name s /\
  rates (run (perform a now) s) = rates s /\
  last_update s <= last_update (run (perform a now) s).
Proof.
  pose proof (tick_frame s now) as [Hn Hr].
  pose proof (tick_last_update s now) as Hl.
  destruct (perform_cases s a now) as [-> | [-> | (h & p & e & g & ->)]].
  - split; [reflexivity | split; [reflexivity | lia]].
  - split; [exact Hn | split; [exact Hr | lia]].
  - unfold with_stats, rates in *. cbn.
    split; [exact Hn | split; [exact Hr | lia]].
Qed.

(** X2.  [tick] sets [last_update] to the later of its old value and the
    clock reading, so it never moves back; a second [tick] at a reading
    not after the first one changes nothing, and in particular [tick] twice
    at the same reading is [tick] once. *)
Theorem tick_settles (s : Tamagotchi) (now : Z) :
  last_update (run (tick now) s) = Z.max (last_update s) now /\
  (forall again, again <= now ->
     run (tick again) (run (tick now) s) = run (tick now) s) /\
  run (tick now) (run (tick now) s) = run (tick now) s.
Proof.
  assert (H : forall again, again <= now ->
            run (tick again) (run (tick now) s) = run (tick now) s).
  { intros again Hle. unfold run at 1. rewrite tick_noop; [reflexivity | ].
    rewrite tick_last_update. lia. }
  split; [apply tick_last_update | split; [exact H | apply H; lia]].
Qed.

Lemma tick_settles_witness :
  run (tick 30000000) (run (tick 60000000) pip) = run (tick 60000000) pip.
Proof.
  exact (proj1 (proj2 (tick_settles pip 60000000)) 30000000 ltac:(lia)).
Defined.

(** X3.  No operation changes the name or a decay rate, and none moves
    [last_update] back: this holds for [tick] and for every entry of the
    action table, at every clock reading. *)
Theorem operations_keep_configuration (s : Tamagotchi) (now : Z) :
  (name (run (tick now) s) = name s /\
   rates (run (tick now) s) = rates s /\
   last_update s <= last_update (run (tick now) s)) /\
  (forall a,
     name (run (perform a now) s) = name s /\
     rates (run (perform a now) s) = rates s /\
     last_update s <= last_update (run (perform a now) s)).
Proof.
  split.
  - pose proof (tick_frame s now) as [Hn Hr].
    split; [exact Hn | split; [exact Hr | ]].
    rewrite tick_last_update. lia.
  - intros a. apply perform_frame.
Qed.

Lemma rates_within_inv lo hi s :
  rates_within lo hi s ->
  lo <= hunger_decay s <= hi /\ lo <= happiness_decay s <= hi /\
  lo <= energy_decay s <= hi /\ lo <= hygiene_decay s <= hi.
Proof.
  unfold rates_within, rates. intros H.
  inversion_clear H as [| ? ? H1 H']. inversion_clear H' as [| ? ? H2 H''].
  inversion_clear H'' as [| ? ? H3 H''']. inversion_clear H''' as [| ? ? H4 _].
  auto.
Qed.

Lemma rates_nonneg_inv s :
  rates_nonneg s ->
  0 <= hunger_decay s /\ 0 <= happiness_decay s /\
  0 <= energy_decay s /\ 0 <= hygiene_decay s.
Proof.
  unfold rates_nonneg, rates. intros H.
  inversion_clear H as [| ? ? H1 H']. inversion_clear H' as [| ? ? H2 H''].
  inversion_clear H'' as [| ? ? H3 H''']. inversion_clear H''' as [| ? ? H4 _].
  auto.
Qed.

Lemma default_rates_list s : default_rates s <-> rates s = [4; 2; 3; 1].
Proof.
  unfold default_rates, rates. split.
  - intros (-> & -> & -> & ->). reflexivity.
  - intros H. injection H. auto.
Qed.

Lemma reachable_default_rates s : reachable s -> default_rates s.
Proof.
  induction 1 as [nm now | s now _ IH | s a now _ IH].
  - repeat split.
  - apply default_rates_list. rewrite (proj2 (tick_frame s now)).
    apply default_rates_list, IH.
  - apply default_rates_list.
    rewrite (proj1 (proj2 (perform_frame s a now))).
    apply default_rates_list, IH.
Qed.

Lemma decay_is_floor last now stat rate :
  last < now -> 0 <= rate ->
  decay (minutes_between last now) stat rate
  = decay_floor (minutes_between last now) stat rate.
Proof.
  intros Hlt Hr. unfold decay, decay_floor.
  rewrite py_int_floor; [reflexivity | ].
  apply minutes_rate_nonneg; assumption.
Qed.

(** X4.  Every state the program reaches has the default decay rates 4,
    2, 3, 1, and there a [tick] after positive elapsed time sets the stats
    to the clamp of the stat less the floor of minutes times rate: on
    reachable states truncation and floor agree. *)
Theorem reachable_tick_is_floor (s : Tamagotchi) (now : Z) :
  reachable s ->
  default_rates s /\
  (last_update s < now ->
   let m := minutes_between (last_update s) now in
   stats (run (tick now) s)
   = [decay_floor m (hunger s) 4; decay_floor m (happiness s) 2;
      decay_floor m (energy s) 3; decay_floor m (hygiene s) 1]).
Proof.
  intros Hr. pose proof (reachable_default_rates s Hr) as Hd.
  split; [exact Hd | ].
  intros Hlt m. destruct Hd as (Hh & Hp & He & Hg).
  unfold run. rewrite tick_decays by exact Hlt.
  unfold stats. cbn [snd hunger happiness energy hygiene].
  rewrite Hh, Hp, He, Hg. fold m.
  unfold m. rewrite !decay_is_floor by lia. reflexivity.
Qed.

Lemma reachable_tick_is_floor_witness :
  stats (run (tick 600000000) (run (perform Sleep 0) pip)) = [15; 40; 50; 60].
Proof.
  assert (Hr : reachable (run (perform Sleep 0) pip))
    by (apply reach_perform, reach_new).
  rewrite (proj2 (reachable_tick_is_floor _ 600000000 Hr) ltac:(cbn; lia)).
  reflexivity.
Defined.

Lemma py_int_minutes_nonneg last now rate :
  last < now -> 0 <= rate ->
  0 <= py_int (minutes_between last now * inject_Z rate).
Proof.
  intros Hlt Hr. rewrite py_int_minutes. apply Z.quot_pos; nia.
Qed.

Lemma decay_le last now stat rate :
  last < now -> 0 <= rate -> in_range stat ->
  decay (minutes_between last now) stat rate <= stat.
Proof.
  intros Hlt Hr Hs. unfold decay.
  pose proof (py_int_minutes_nonneg last now rate Hlt Hr) as Hq.
  unfold in_range, clamp, clamp3, MIN_STAT, MAX_STAT in *. lia.
Qed.

(** X5.  On an instance whose stats are within 0 and 100 and whose decay
    rates are not negative, [tick] raises no stat, at any clock reading. *)
Theorem tick_never_raises (s : Tamagotchi) (now : Z) :
  stats_ok s -> rates_nonneg s ->
  hunger (run (tick now) s) <= hunger s /\
  happiness (run (tick now) s) <= happiness s /\
  energy (run (tick now) s) <= energy s /\
  hygiene (run (tick now) s) <= hygiene s.
Proof.
  intros (Hh & Hp & He & Hg) Hr.
  apply rates_nonneg_inv in Hr. destruct Hr as (Rh & Rp & Re & Rg).
  destruct (Z_le_gt_dec now (last_update s)) as [Hle | Hgt]; unfold run.
  - rewrite tick_noop by exact Hle. cbn. lia.
  - rewrite tick_decays by lia. cbn.
    repeat split; apply decay_le; auto; lia.
Qed.

Lemma tick_never_raises_witness :
  hunger (run (tick 90000000) pip) <= hunger pip.
Proof.
  refine (proj1 (tick_never_raises pip 90000000 _ _)).
  - apply new_in_range.
  - change (Forall (fun r => 0 <= r) [4; 2; 3; 1]).
    repeat (apply Forall_cons; [lia | ]). apply Forall_nil.
Defined.

Lemma decay_none last now stat rate d R :
  d * R <= 60000000 -> 0 <= rate <= R ->
  last < now -> now < last + d -> in_range stat ->
  decay (minutes_between last now) stat rate = stat.
Proof.
  intros HdR Hr Hlt Hd Hs. unfold decay. rewrite py_int_minutes.
  assert (Hsmall : 0 <= (now - last) * rate < 60000000).
  { split; [nia | ].
    assert (H1 : (now - last) * rate <= (now - last) * R) by nia.
    destruct (Z.eq_dec R 0) as [-> | HR]; [lia | ].
    assert (H2 : (now - last) * R <= (d - 1) * R) by nia.
    lia. }
  rewrite Z.quot_small by exact Hsmall.
  unfold in_range, clamp, clamp3, MIN_STAT, MAX_STAT in *. lia.
Qed.

Lemma tick_short s now d R :
  d * R <= 60000000 -> stats_ok s -> rates_within 0 R s ->
  now < last_update s + d ->
  stats (run (tick now) s) = stats s.
Proof.
  intros HdR (Hh & Hp & He & Hg) Hr Hd.
  apply rates_within_inv in Hr. destruct Hr as (Rh & Rp & Re & Rg).
  destruct (Z_le_gt_dec now (last_update s)) as [Hle | Hgt]; unfold run.
  - rewrite tick_noop by exact Hle. reflexivity.
  - rewrite tick_decays by lia. unfold stats. cbn.
    rewrite !(decay_none _ _ _ _ d R) by (auto; lia). reflexivity.
Qed.

Lemma ticks_cons now later s :
  run (ticks (now :: later)) s = run (ticks later) (run (tick now) s).
Proof.
  unfold run at 1. cbn [ticks]. unfold bind. rewrite tick_runs. reflexivity.
Qed.

Lemma ticks_last_update nows : forall s,
  last_update (run (ticks nows) s) = fold_left Z.max nows (last_update s).
Proof.
  induction nows as [| now later IH]; intros s.
  - reflexivity.
  - rewrite ticks_cons, IH, tick_last_update. reflexivity.
Qed.

(** X6.  Decay is truncated at every [tick]: when each call comes less
    than [d] microseconds after the latest clock reading and every rate is
    between 0 and [R] with [d * R <= 60000000], no call of the succession
    lowers a stat, however long the succession lasts, while [last_update]
    follows the clock.  With the default rates (at most 4) this is the case
    of calls less than 15 seconds apart. *)
Theorem frequent_ticks_never_decay (d R : Z) (nows : list Z) (s : Tamagotchi) :
  d * R <= 60000000 ->
  stats_ok s -> rates_within 0 R s ->
  spaced d (last_update s) nows ->
  stats (run (ticks nows) s) = stats s /\
  last_update (run (ticks nows) s) = fold_left Z.max nows (last_update s).
Proof.
  intros HdR Hs Hr Hsp. split; [ | apply ticks_last_update].
  revert s Hs Hr Hsp.
  induction nows as [| now later IH]; intros s Hs Hr Hsp.
  - reflexivity.
  - destruct Hsp as [Hnow Hlater]. rewrite ticks_cons, IH.
    + apply (tick_short s now d R); assumption.
    + apply tick_keeps_range, Hs.
    + unfold rates_within. rewrite (proj2 (tick_frame s now)). exact Hr.
    + rewrite tick_last_update. exact Hlater.
Qed.

Lemma frequent_ticks_never_decay_witness :
  stats (run (ticks [14000000; 28000000; 42000000; 56000000; 70000000]) pip)
  = [65; 60; 55; 70] /\
  stats (run (tick 70000000) pip) = [61; 58; 52; 69].
Proof.
  split; [ | reflexivity].
  refine (proj1 (frequent_ticks_never_decay 15000000 4 _ pip _ _ _ _)).
  - lia.
  - apply new_in_range.
  - change (Forall (fun r => 0 <= r <= 4) [4; 2; 3; 1]).
    repeat (apply Forall_cons; [lia | ]). apply Forall_nil.
  - cbn. lia.
Defined.





(** ** What the actions and the mood text guarantee *)

(** X8.  On an instance with stats within 0 and 100, [feed] leaves hunger
    at 25 or more, [sleep] leaves energy at 25 or more and [clean] leaves
    hygiene at 30 or more; an accepted [play] lowers energy by exactly 15.
    Since no action tests [is_alive], a pet whose hunger is 0 after the
    leading [tick], with happiness above 0 and hygiene above 5, is alive
    again after [feed]. *)
Theorem actions_restore (s : Tamagotchi) (now : Z) :
  stats_ok s ->
  let t := run (tick now) s in
  25 <= hunger (run (feed now) s) /\
  25 <= energy (run (sleep now) s) /\
  30 <= hygiene (run (clean now) s) /\
  (15 <= energy t -> energy (run (play now) s) = energy t - 15) /\
  (hunger t = 0 -> 0 < happiness t -> 5 < hygiene t ->
   result is_alive t = false /\
   result is_alive (run (feed now) s) = true).
Proof.
  intros Hs t. pose proof (tick_keeps_range s now Hs) as Ht. fold t in Ht.
  destruct Ht as (Hh & Hp & He & Hg). unfold in_range in *.
  unfold run at 1 2 3. rewrite feed_eq, sleep_eq, clean_eq. fold t.
  unfold fed, slept, cleaned. cbn [snd hunger energy hygiene with_stats].
  unfold clamp, clamp3, MIN_STAT, MAX_STAT.
  split; [lia | split; [lia | split; [lia | split]]].
  - intros Hok. unfold run at 1. rewrite play_accepted by exact Hok.
    fold t. cbn. unfold clamp, clamp3, MIN_STAT, MAX_STAT. lia.
  - intros Hz Hp' Hg'. split.
    + rewrite <- Bool.not_true_iff_false, is_alive_true. lia.
    + unfold run. rewrite feed_eq. fold t. apply is_alive_true. cbn.
      unfold clamp, clamp3, MIN_STAT, MAX_STAT. lia.
Qed.

Lemma actions_restore_witness :
  result is_alive starved = false /\
  result is_alive (run (feed 0) starved) = true.
Proof.
  assert (Hs : stats_ok starved) by (unfold stats_ok, in_range; cbn; lia).
  refine (proj2 (proj2 (proj2 (proj2 (actions_restore starved 0 Hs)))) _ _ _).
  - reflexivity.
  - cbn; lia.
  - cbn; lia.
Defined.

Lemma mood_text_needs s :
  result _mood_text s =
    match needs_of s with
    | [] => name s ++ lit " is feeling great!"
    | _ :: _ =>
        name s ++ lit " feels a bit " ++ join (lit " and ") (needs_of s) ++ lit "."
    end.
Proof.
  unfold result, _mood_text, needs_of, bind, gets, ret. cbn.
  destruct (hunger s <? 30), (happiness s <? 30),
           (energy s <? 30), (hygiene s <? 30); reflexivity.
Qed.

Lemma mood_text_great s :
  result _mood_text s = name s ++ lit " is feeling great!" <->
  30 <= hunger s /\ 30 <= happiness s /\ 30 <= energy s /\ 30 <= hygiene s.
Proof.
  rewrite mood_text_needs. unfold needs_of.
  destruct (Z.ltb_spec (hunger s) 30), (Z.ltb_spec (happiness s) 30),
           (Z.ltb_spec (energy s) 30), (Z.ltb_spec (hygiene s) 30);
    cbn [app];
    (split; [intros Heq; try lia; apply app_inv_head in Heq; cbv in Heq;
                discriminate Heq
            | intros; try lia; reflexivity]).
Qed.

(** X9.  The mood text is the feeling-great sentence exactly when the
    four stats are 30 or more; a pet that is not alive is therefore never
    reported as feeling great. *)
Theorem great_mood_means_alive (s : Tamagotchi) :
  (result _mood_text s = name s ++ lit " is feeling great!" <->
   30 <= hunger s /\ 30 <= happiness s /\ 30 <= energy s /\ 30 <= hygiene s) /\
  (result is_alive s = false ->
   result _mood_text s <> name s ++ lit " is feeling great!").
Proof.
  split; [apply mood_text_great | ].
  intros Hdead Hgreat. apply mood_text_great in Hgreat.
  rewrite <- Bool.not_true_iff_false, is_alive_true in Hdead. lia.
Qed.

Lemma great_mood_means_alive_witness :
  result _mood_text starved <> name starved ++ lit " is feeling great!".
Proof.
  exact (proj2 (great_mood_means_alive starved) eq_refl).
Defined.

(** ** The command loop *)

Lemma summary_pair s : summary s = (result summary s, s).
Proof. reflexivity. Qed.

Lemma perform_pair a now s :
  perform a now s = (result (perform a now) s, run (perform a now) s).
Proof. unfold result, run. destruct (perform a now s). reflexivity. Qed.

Lemma cli_loop_pair inputs s :
  cli_loop inputs s = (result (cli_loop inputs) s, run (cli_loop inputs) s).
Proof. unfold result, run. destruct (cli_loop inputs s). reflexivity. Qed.

(** The instance one pass of the loop leaves, and whether the loop goes
    on with the next answer. *)
Lemma cli_loop_run_cons i rest s :
  run (cli_loop (i :: rest)) s =
  if negb (result is_alive s) then s
  else if is_blank i then run (cli_loop rest) s
  else
    let t := run (tick (now_loop i)) s in
    match dict_get actions (command i) with
    | None => run (cli_loop rest) t
    | Some a =>
        let u := run (perform a (now_action i)) t in
        if is_quit (command i) then u else run (cli_loop rest) u
    end.
Proof.
  unfold run at 1. cbn [cli_loop]. unfold bind at 1.
  rewrite is_alive_runs. cbv beta iota.
  destruct (result is_alive s); cbn [negb]; [ | reflexivity].
  unfold bind at 1. rewrite summary_pair. cbv beta iota.
  unfold is_blank. destruct (command i) as [| c cs] eqn:Ec.
  - unfold bind. rewrite (cli_loop_pair rest s). reflexivity.
  - unfold bind at 1. rewrite tick_runs. cbv beta iota zeta.
    destruct (dict_get actions (c :: cs)) as [a | ].
    + unfold bind at 1. rewrite perform_pair. cbv beta iota.
      fold (is_quit (c :: cs)). destruct (is_quit (c :: cs)).
      * reflexivity.
      * unfold bind. rewrite cli_loop_pair. reflexivity.
    + unfold bind. rewrite cli_loop_pair. reflexivity.
Qed.

Lemma cli_loop_run_nil s : run (cli_loop []) s = s.
Proof.
  unfold run. cbn [cli_loop]. unfold bind at 1. rewrite is_alive_runs.
  cbv beta iota. destruct (result is_alive s); reflexivity.
Qed.

(** X10.  The command loop changes the pet by [tick] and by the actions of
    the table only: whatever is typed, a property of the instance that
    [tick] and every table action keep holds after the loop.  So the
    instance the loop leaves is a reachable one, with stats within 0 and
    100, the name and the rates it started with. *)
Theorem cli_loop_keeps (P : Tamagotchi -> Prop) :
  (forall s now, P s -> P (run (tick now) s)) ->
  (forall s a now, P s -> P (run (perform a now) s)) ->
  forall inputs s, P s -> P (run (cli_loop inputs) s).
Proof.
  intros Htick Hperform.
  induction inputs as [| i rest IH]; intros s Hs.
  - rewrite cli_loop_run_nil. exact Hs.
  - rewrite cli_loop_run_cons.
    destruct (negb (result is_alive s)); [exact Hs | ].
    destruct (is_blank i); [apply IH, Hs | ].
    cbv zeta. destruct (dict_get actions (command i)) as [a | ].
    + destruct (is_quit (command i)).
      * apply Hperform, Htick, Hs.
      * apply IH, Hperform, Htick, Hs.
    + apply IH, Htick, Hs.
Qed.

Lemma cli_loop_keeps_witness :
  reachable (run (cli_loop [mkInput (lit "feed") 60000000 60000001;
                            mkInput (lit "nonsense") 70000000 70000001;
                            mkInput (lit "play") 80000000 80000001]) pip) /\
  stats_ok (run (cli_loop [mkInput (lit "feed") 60000000 60000001;
                           mkInput (lit "nonsense") 70000000 70000001;
                           mkInput (lit "play") 80000000 80000001]) pip).
Proof.
  split.
  - apply (cli_loop_keeps reachable reach_tick reach_perform).
    apply reach_new.
  - apply (cli_loop_keeps stats_ok
             (fun s now => tick_keeps_range s now)
             (fun s a now => perform_keeps_range s a now)).
    apply new_in_range.
Defined.

Lemma str_eqb_eq a : forall b, str_eqb a b = true <-> a = b.
Proof.
  induction a as [| x a IH]; intros [| y b]; cbn; try (split; congruence).
  - rewrite Bool.andb_true_iff, N.eqb_eq, IH. split.
    + intros [-> ->]. reflexivity.
    + intros H. injection H. auto.
Qed.

Lemma is_quit_inv c : is_quit c = true -> c = lit "quit" \/ c = lit "ende".
Proof.
  unfold is_quit. rewrite Bool.orb_true_iff, !str_eqb_eq. tauto.
Qed.

Lemma quit_pass q rest s :
  is_quit (command q) = true -> result is_alive s = true ->
  cli_loop (q :: rest) s
  = ([10%N :: result summary s; goodbye], run (tick (now_loop q)) s).
Proof.
  intros Hq Halive. pose proof (is_quit_inv _ Hq) as Hc.
  assert (Hd : dict_get actions (command q) = Some Goodbye)
    by (destruct Hc as [-> | ->]; reflexivity).
  assert (Hne : exists c cs, command q = c :: cs)
    by (destruct Hc as [-> | ->]; do 2 eexists; reflexivity).
  destruct Hne as (c & cs & Ec). rewrite Ec in Hd, Hq. unfold is_quit in Hq.
  cbn [cli_loop]. unfold bind at 1.
  rewrite is_alive_runs, Halive. cbv beta iota. cbn [negb].
  unfold bind at 1. rewrite summary_pair. cbv beta iota.
  rewrite Ec. unfold bind at 1. rewrite tick_runs. cbv beta iota.
  rewrite Hd. unfold bind at 1. cbn [perform]. unfold ret at 1.
  cbv beta iota. rewrite Hq. reflexivity.
Qed.

Lemma cli_loop_cons_ext i l l' :
  (forall s, cli_loop l s = cli_loop l' s) ->
  forall s, cli_loop (i :: l) s = cli_loop (i :: l') s.
Proof.
  intros H s. cbn [cli_loop]. unfold bind.
  destruct (is_alive s) as [alive s1].
  destruct (negb alive); [reflexivity | ].
  destruct (summary s1) as [text s2].
  destruct (command i) as [| c cs].
  - rewrite H. reflexivity.
  - destruct (tick (now_loop i) s2) as [[] s3].
    destruct (dict_get actions (c :: cs)) as [a | ].
    + destruct (perform a (now_action i) s3) as [response s4].
      destruct (str_eqb (c :: cs) (lit "quit") || str_eqb (c :: cs) (lit "ende")).
      * reflexivity.
      * rewrite H. reflexivity.
    + rewrite H. reflexivity.
Qed.

(** X11.  "quit" and "ende" end the loop: the pass that reads one of them
    on a living pet prints the status and the goodbye text and leaves the
    pet as the loop's own [tick] left it, and whatever is typed after it,
    anywhere in a session, changes neither the lines printed nor the
    instance. *)
Theorem quit_ends_loop (q : Input) :
  is_quit (command q) = true ->
  (forall rest s, result is_alive s = true ->
     cli_loop (q :: rest) s
     = ([10%N :: result summary s; goodbye], run (tick (now_loop q)) s)) /\
  (forall before rest s,
     cli_loop (before ++ q :: rest) s = cli_loop (before ++ [q]) s).
Proof.
  intros Hq. split; [intros rest s; apply quit_pass, Hq | ].
  induction before as [| i before IH]; intros rest s.
  - cbn [app]. destruct (result is_alive s) eqn:Halive.
    + rewrite !quit_pass by assumption. reflexivity.
    + rewrite !cli_loop_stops by exact Halive. reflexivity.
  - cbn [app]. apply cli_loop_cons_ext. intros s'. apply IH.
Qed.

Lemma quit_ends_loop_witness :
  cli_loop [mkInput (lit "talk") 1 2; mkInput (lit "ende") 3 4;
            mkInput (lit "feed") 5 6] pip
  = cli_loop [mkInput (lit "talk") 1 2; mkInput (lit "ende") 3 4] pip.
Proof.
  exact (proj2 (quit_ends_loop (mkInput (lit "ende") 3 4) eq_refl)
           [mkInput (lit "talk") 1 2] [mkInput (lit "feed") 5 6] pip).
Defined.

(** X12.  The loop skips empty answers before it does anything to the
    pet: a session leaves the same instance as the session without its
    empty answers. *)
Theorem blank_answers_leave_pet (inputs : list Input) (s : Tamagotchi) :
  run (cli_loop inputs) s
  = run (cli_loop (List.filter (fun i => negb (is_blank i)) inputs)) s.
Proof.
  revert s. induction inputs as [| i rest IH]; intros s.
  - reflexivity.
  - cbn [List.filter]. destruct (is_blank i) eqn:Eb; cbn [negb].
    + rewrite cli_loop_run_cons, Eb.
      destruct (result is_alive s) eqn:Halive; cbn [negb].
      * apply IH.
      * unfold run. rewrite cli_loop_stops by exact Halive. reflexivity.
    + rewrite !cli_loop_run_cons, Eb.
      destruct (negb (result is_alive s)); [reflexivity | ].
      cbv zeta. destruct (dict_get actions (command i)) as [a | ].
      * destruct (is_quit (command i)); [reflexivity | apply IH].
      * apply IH.
Qed.

(** ** [prompt_for_name] *)

Lemma lstrip_nil s : lstrip s = [] <-> forallb isspace s = true.
Proof.
  induction s as [| c s IH]; cbn.
  - tauto.
  - destruct (isspace c); cbn; [exact IH | split; discriminate].
Qed.

Lemma lstrip_head s c cs : lstrip s = c :: cs -> isspace c = false.
Proof.
  induction s as [| x s IH]; cbn; [discriminate | ].
  destruct (isspace x) eqn:Ex; [exact IH | ].
  intros H. injection H as -> _. exact Ex.
Qed.

Lemma lstrip_fixed c cs : isspace c = false -> lstrip (c :: cs) = c :: cs.
Proof. intros H. cbn. rewrite H. reflexivity. Qed.

Lemma lstrip_snoc s d :
  isspace d = false -> exists front, lstrip (s ++ [d]) = front ++ [d].
Proof.
  intros Hd. induction s as [| x s IH]; cbn.
  - rewrite Hd. exists []. reflexivity.
  - destruct (isspace x); [exact IH | ]. exists (x :: s). reflexivity.
Qed.

Lemma rstrip_snoc s d : isspace d = false -> rstrip (s ++ [d]) = s ++ [d].
Proof.
  intros Hd. unfold rstrip. rewrite rev_app_distr. cbn [List.rev app].
  rewrite lstrip_fixed by exact Hd. cbn [List.rev].
  rewrite rev_involutive. reflexivity.
Qed.

Lemma rstrip_shape s :
  rstrip s = [] \/ exists front d, rstrip s = front ++ [d] /\ isspace d = false.
Proof.
  unfold rstrip. destruct (lstrip (List.rev s)) as [| d ds] eqn:E.
  - left. reflexivity.
  - right. exists (List.rev ds), d. split; [reflexivity | ].
    apply lstrip_head in E. exact E.
Qed.

Lemma strip_shape s :
  strip s = [] \/
  exists c front d,
    strip s = front ++ [d] /\ hd_error (strip s) = Some c /\
    isspace c = false /\ isspace d = false.
Proof.
  unfold strip. destruct (rstrip_shape s) as [-> | (front & d & -> & Hd)].
  - left. reflexivity.
  - right. destruct (lstrip_snoc front d Hd) as (front' & E).
    destruct (lstrip (front ++ [d])) as [| c cs] eqn:El.
    + destruct front'; discriminate E.
    + exists c, front', d. repeat split; try assumption.
      apply lstrip_head in El. exact El.
Qed.

Lemma strip_strip s : strip (strip s) = strip s.
Proof.
  destruct (strip_shape s) as [-> | (c & front & d & E & Hhd & Hc & Hd)].
  - reflexivity.
  - unfold strip at 1. rewrite E at 1. rewrite rstrip_snoc by exact Hd.
    rewrite <- E. destruct (strip s) as [| x xs]; [reflexivity | ].
    cbn in Hhd. injection Hhd as ->. apply lstrip_fixed, Hc.
Qed.

Lemma strip_blank s : strip s = [] <-> forallb isspace s = true.
Proof.
  unfold strip. split.
  - intros H. destruct (rstrip_shape s) as [E | (front & d & E & Hd)].
    + unfold rstrip in E. apply (f_equal (@List.rev N)) in E.
      rewrite rev_involutive in E. cbn in E. apply lstrip_nil in E.
      rewrite forallb_forall in *. intros x Hx. apply E, in_rev.
      rewrite rev_involutive. exact Hx.
    + rewrite E in H. destruct (lstrip_snoc front d Hd) as (front' & E').
      rewrite E' in H. destruct front'; discriminate H.
  - intros H. assert (E : rstrip s = []).
    { unfold rstrip. replace (lstrip (List.rev s)) with (@nil N); [reflexivity | ].
      symmetry. apply lstrip_nil. rewrite forallb_forall in *.
      intros x Hx. apply H, in_rev, Hx. }
    rewrite E. reflexivity.
Qed.

(** X13.  [prompt_for_name] never returns an empty name: it answers each
    line that is empty or all whitespace with the request to give a name,
    and returns the first other line, stripped, so the name starts and
    ends with a character that is not whitespace and stripping it again
    changes nothing.  While every line so far is blank it has returned
    nothing. *)
Theorem prompt_for_name_nonempty (lines : list pystr) :
  (forall nm out, prompt_for_name lines = (Some nm, out) ->
     nm <> [] /\ strip nm = nm /\
     exists before line after,
       lines = before ++ line :: after /\
       Forall (fun l => forallb isspace l = true) before /\
       forallb isspace line = false /\
       nm = strip line /\
       out = List.repeat name_please (List.length before)) /\
  (forall out, prompt_for_name lines = (None, out) ->
     Forall (fun l => forallb isspace l = true) lines /\
     out = List.repeat name_please (List.length lines)).
Proof.
  induction lines as [| line later [IHsome IHnone]].
  - split; cbn; intros; [discriminate | ].
    split; [constructor | congruence].
  - cbn [prompt_for_name].
    destruct (strip line) as [| c cs] eqn:Es.
    + destruct (prompt_for_name later) as [[nm' | ] out'] eqn:Ep.
      * split; [ | intros; discriminate].
        intros nm out H. injection H as <- <-.
        destruct (IHsome nm' out' eq_refl)
          as (Hne & Hfix & before & l & after & -> & Hb & Hl & Hnm & Hout).
        split; [exact Hne | split; [exact Hfix | ]].
        exists (line :: before), l, after. cbn.
        repeat split; try assumption.
        -- constructor; [apply strip_blank, Es | exact Hb].
        -- rewrite Hout. reflexivity.
      * split; [intros; discriminate | ].
        intros out H. injection H as <-.
        destruct (IHnone out' eq_refl) as [Hall Hout].
        split; [constructor; [apply strip_blank, Es | exact Hall] | ].
        cbn. rewrite Hout. reflexivity.
    + split; [ | intros; discriminate].
      intros nm out H. injection H as <- <-.
      split; [discriminate | ]. split.
      * rewrite <- Es. apply strip_strip.
      * exists [], line, later. cbn. repeat split; try constructor.
        -- rewrite <- Bool.not_true_iff_false, <- strip_blank, Es. discriminate.
        -- symmetry. exact Es.
Qed.

Lemma prompt_for_name_nonempty_witness :
  prompt_for_name [lit "   "; []; lit "  Pip the 2nd "; lit "Rex"]
  = (Some (lit "Pip the 2nd"), [name_please; name_please]) /\
  lit "Pip the 2nd" <> [].
Proof.
  split; [reflexivity | ].
  exact (proj1 (proj1 (prompt_for_name_nonempty
           [lit "   "; []; lit "  Pip the 2nd "; lit "Rex"])
           (lit "Pip the 2nd") [name_please; name_please] eq_refl)).
Defined.

(** ** The window *)

Lemma refresh_keeps w :
  pet (_refresh_stats w) = pet w /\
  message_var (_refresh_stats w) = message_var w /\
  buttons (_refresh_stats w) = buttons w.
Proof. repeat split. Qed.

Lemma refresh_shows w : shows_pet (_refresh_stats w).
Proof. intros a. destruct a; split; reflexivity. Qed.

Lemma game_over_shows w : shows_pet w -> shows_pet (fst (_handle_game_over w)).
Proof. intros H a. exact (H a). Qed.

Lemma game_over_disables w : all_disabled (fst (_handle_game_over w)).
Proof.
  unfold all_disabled. cbn. induction (buttons w) as [| tb l IH]; cbn.
  - constructor.
  - constructor; [reflexivity | exact IH].
Qed.

(** X14.  [_perform_action] runs the action on the pet, and afterwards the
    labels and the bars show the pet's stats.  If the pet is then alive the
    message is the action's answer, the buttons are as before and nothing
    is asked of the toolkit; if not, every button is disabled, the message
    is the game-over text, and the animation's game-over call and the
    message box are requested. *)
Theorem perform_action_updates_window (a : Action) (now : Z) (w : Window) :
  let w' := fst (_perform_action a now w) in
  let requests := snd (_perform_action a now w) in
  pet w' = run (perform a now) (pet w) /\
  shows_pet w' /\
  (result is_alive (pet w') = true ->
     message_var w' = result (perform a now) (pet w) /\
     buttons w' = buttons w /\ requests = []) /\
  (result is_alive (pet w') = false ->
     message_var w' = game_over_message (name (pet w')) /\
     all_disabled w' /\
     requests = [AnimationGameOver;
                 ShowInfo (lit "Tamagotchi") (lost (name (pet w')))]).
Proof.
  unfold _perform_action. rewrite perform_pair.
  set (p := run (perform a now) (pet w)).
  set (w1 := mkWindow p (result (perform a now) (pet w)) (stat_labels w)
               (progress_bars w) (buttons w)).
  change (pet (_refresh_stats w1)) with p.
  destruct (result is_alive p) eqn:Halive; cbn [negb].
  - cbn [fst snd]. split; [reflexivity | ].
    split; [apply refresh_shows | ].
    split; [intros _; repeat split | ].
    intros H. change (result is_alive p = false) in H. congruence.
  - cbv zeta. split; [reflexivity | ].
    split; [apply game_over_shows, refresh_shows | ].
    split; [intros H; change (result is_alive p = true) in H; congruence | ].
    intros _. split; [reflexivity | ].
    split; [apply game_over_disables | reflexivity].
Qed.

(** A window on a pet whose hunger is 1. *)
Lemma perform_action_updates_window_witness :
  let w := fst (open_window (mkTamagotchi (lit "Pip") 1 60 55 70 0 4 2 3 1) 0) in
  result is_alive (pet (fst (_perform_action Play 0 w))) = false /\
  all_disabled (fst (_perform_action Play 0 w)).
Proof.
  cbv zeta. split; [reflexivity | ].
  refine (proj1 (proj2 (proj2 (proj2 (proj2
            (perform_action_updates_window Play 0 _))) _))).
  reflexivity.
Defined.

(** X15.  [_update_loop] applies [tick] to the pet, and afterwards the
    labels and the bars show the pet's stats.  It asks for its next round
    in 2000 ms exactly when the pet is alive after the [tick], leaving
    message and buttons alone; otherwise it asks for no further round,
    disables every button, sets the game-over text and requests the
    animation's game-over call and the message box. *)
Theorem update_loop_updates_window (now : Z) (w : Window) :
  let w' := fst (_update_loop now w) in
  let requests := snd (_update_loop now w) in
  pet w' = run (tick now) (pet w) /\
  shows_pet w' /\
  (result is_alive (pet w') = true ->
     message_var w' = message_var w /\
     buttons w' = buttons w /\ requests = [After 2000]) /\
  (result is_alive (pet w') = false ->
     message_var w' = game_over_message (name (pet w')) /\
     all_disabled w' /\
     requests = [AnimationGameOver;
                 ShowInfo (lit "Tamagotchi") (lost (name (pet w')))]).
Proof.
  unfold _update_loop.
  set (p := run (tick now) (pet w)).
  set (w1 := mkWindow p (message_var w) (stat_labels w)
               (progress_bars w) (buttons w)).
  cbv zeta. change (pet (_refresh_stats w1)) with p.
  destruct (result is_alive p) eqn:Halive.
  - cbn [fst snd]. split; [reflexivity | ].
    split; [apply refresh_shows | ].
    split; [intros _; repeat split | ].
    intros H. change (result is_alive p = false) in H. congruence.
  - split; [reflexivity | ].
    split; [apply game_over_shows, refresh_shows | ].
    split; [intros H; change (result is_alive p = true) in H; congruence | ].
    intros _. split; [reflexivity | ].
    split; [apply game_over_disables | reflexivity].
Qed.

Lemma update_loop_updates_window_witness :
  let w := fst (open_window pip 0) in
  result is_alive (pet (fst (_update_loop 1200000000 w))) = false /\
  snd (_update_loop 1200000000 w)
  = [AnimationGameOver; ShowInfo (lit "Tamagotchi") (lost (lit "Pip"))].
Proof.
  cbv zeta. split; [reflexivity | ].
  refine (proj2 (proj2 (proj2 (proj2 (proj2
            (update_loop_updates_window 1200000000 _))) _))).
  reflexivity.
Defined.

Lemma is_alive_of_stats s :
  result is_alive s = forallb (fun stat => MIN_STAT <? stat) (stats s).
Proof. reflexivity. Qed.

Lemma update_loop_alive now w :
  result is_alive (run (tick now) (pet w)) = true ->
  _update_loop now w
  = (_refresh_stats (mkWindow (run (tick now) (pet w)) (message_var w)
                       (stat_labels w) (progress_bars w) (buttons w)),
     [After 2000]).
Proof.
  intros Halive. unfold _update_loop. cbv zeta.
  change (pet (_refresh_stats ?x)) with (pet x). cbn [pet].
  rewrite Halive. reflexivity.
Qed.

(** X16.  The timer alone never wears the pet down when its rounds come
    quickly: with stats within 0 and 100, rates between 0 and [R], and each
    round of [_update_loop] less than [d] microseconds after the latest
    clock reading, [d * R <= 60000000] (15 seconds for the default rates),
    a living pet keeps its stats through any number of rounds, the loop
    keeps asking for its next round, and message and buttons stay as they
    are. *)
Theorem timer_rounds_never_decay (d R : Z) (nows : list Z) (w : Window) :
  d * R <= 60000000 ->
  stats_ok (pet w) -> rates_within 0 R (pet w) ->
  result is_alive (pet w) = true ->
  spaced d (last_update (pet w)) nows ->
  let w' := fst (update_rounds nows w) in
  stats (pet w') = stats (pet w) /\
  snd (update_rounds nows w) = [After 2000] /\
  buttons w' = buttons w /\
  message_var w' = message_var w.
Proof.
  intros HdR. revert w.
  induction nows as [| now later IH]; intros w Hs Hr Halive Hsp.
  - repeat split.
  - destruct Hsp as [Hnow Hlater]. cbv zeta.
    pose proof (tick_short (pet w) now d R HdR Hs Hr Hnow) as Hstats.
    assert (Halive' : result is_alive (run (tick now) (pet w)) = true)
      by (rewrite is_alive_of_stats, Hstats, <- is_alive_of_stats; exact Halive).
    cbn [update_rounds]. rewrite update_loop_alive by exact Halive'.
    set (w1 := _refresh_stats _).
    assert (Hpet : pet w1 = run (tick now) (pet w)) by reflexivity.
    specialize (IH w1). cbv zeta in IH. rewrite Hpet in IH.
    destruct IH as (H1 & H2 & H3 & H4).
    + apply tick_keeps_range, Hs.
    + unfold rates_within. rewrite (proj2 (tick_frame (pet w) now)). exact Hr.
    + exact Halive'.
    + rewrite tick_last_update. exact Hlater.
    + rewrite H1, Hstats. repeat split; assumption.
Qed.

Lemma timer_rounds_never_decay_witness :
  let w := fst (open_window pip 0) in
  stats (pet (fst (update_rounds [2000000; 4000000; 6000000; 8000000] w)))
  = [65; 60; 55; 70].
Proof.
  cbv zeta.
  refine (proj1 (timer_rounds_never_decay 15000000 4
                   [2000000; 4000000; 6000000; 8000000] _ _ _ _ _ _)).
  - lia.
  - apply new_in_range.
  - change (Forall (fun r => 0 <= r <= 4) [4; 2; 3; 1]).
    repeat (apply Forall_cons; [lia | ]). apply Forall_nil.
  - reflexivity.
  - cbn. lia.
Defined.

(** ** Edge of the clamp invariant *)

(** X17.  A [tick] after positive elapsed time brings the four stats
    within 0 and 100 whatever they were, so an instance constructed with
    stats out of range is in range from its first effective [tick] on;
    a [tick] without elapsed time leaves such stats as they are. *)
Theorem tick_establishes_range (s : Tamagotchi) (now : Z) :
  (last_update s < now -> stats_ok (run (tick now) s)) /\
  (now <= last_update s -> stats (run (tick now) s) = stats s).
Proof.
  split.
  - intros Hlt. unfold run. rewrite tick_decays by exact Hlt.
    unfold stats_ok, decay. cbn. auto using clamp_in_range.
  - intros Hle. unfold run. rewrite tick_noop by exact Hle. reflexivity.
Qed.

Lemma tick_establishes_range_witness :
  stats (run (tick 1) (mkTamagotchi (lit "Pip") 250 (-3) 55 70 0 4 2 3 1))
  = [100; 0; 55; 70] /\
  stats_ok (run (tick 1) (mkTamagotchi (lit "Pip") 250 (-3) 55 70 0 4 2 3 1)).
Proof.
  split; [reflexivity | ].
  apply (proj1 (tick_establishes_range
                  (mkTamagotchi (lit "Pip") 250 (-3) 55 70 0 4 2 3 1) 1)).
  cbn. lia.
Defined.

(** ** The goblin's club *)

Lemma animate_goblin_keeps g :
  -2 <= goblin_club_offset g <= 8 ->
  goblin_club_direction g = 1 \/ goblin_club_direction g = -1 ->
  goblin_club_y g = goblin_club_offset g ->
  -2 <= goblin_club_offset (_animate_goblin g) <= 8 /\
  (goblin_club_direction (_animate_goblin g) = 1 \/
   goblin_club_direction (_animate_goblin g) = -1) /\
  goblin_club_y (_animate_goblin g) = goblin_club_offset (_animate_goblin g).
Proof.
  intros Ho Hd Hy. unfold _animate_goblin. cbn.
  destruct (Z.leb_spec 8 (goblin_club_offset g));
    [ | destruct (Z.leb_spec (goblin_club_offset g) (-2))]; lia.
Qed.

(** X18.  Through any number of frames after [_draw_goblin], the club's
    offset stays between -2 and 8, its direction is 1 or -1, the club is
    on the canvas exactly [offset] pixels below where it was drawn, and
    the movement repeats every 20 frames. *)
Theorem goblin_club_swings (n : nat) :
  let g := Nat.iter n _animate_goblin drawn_goblin in
  -2 <= goblin_club_offset g <= 8 /\
  (goblin_club_direction g = 1 \/ goblin_club_direction g = -1) /\
  goblin_club_y g = goblin_club_offset g /\
  Nat.iter (n + 20) _animate_goblin drawn_goblin = g.
Proof.
  cbv zeta.
  assert (Hinv : -2 <= goblin_club_offset (Nat.iter n _animate_goblin drawn_goblin) <= 8 /\
                 (goblin_club_direction (Nat.iter n _animate_goblin drawn_goblin) = 1 \/
                  goblin_club_direction (Nat.iter n _animate_goblin drawn_goblin) = -1) /\
                 goblin_club_y (Nat.iter n _animate_goblin drawn_goblin)
                 = goblin_club_offset (Nat.iter n _animate_goblin drawn_goblin)).
  { induction n as [| n IH].
    - cbn. lia.
    - cbn [Nat.iter]. destruct IH as (Ho & Hd & Hy).
      apply animate_goblin_keeps; assumption. }
  destruct Hinv as (Ho & Hd & Hy).
  split; [exact Ho | split; [exact Hd | split; [exact Hy | ]]].
  rewrite Nat.iter_add.
  replace (Nat.iter 20 _animate_goblin drawn_goblin) with drawn_goblin
    by reflexivity.
  reflexivity.
Qed.
